(** * Calorie and macro tracker (script.js): model and verified properties

    The development follows script.js top to bottom: the constants, the two
    pure calculators ([calculateBMR], [calculateExerciseAdjustment]), the
    two Local Storage helpers, [renderLogAndSummary], and the four event
    handlers.

    Numbers.  A JavaScript number that is finite is a rational, and the
    arithmetic of the script ([+], [-], [*], [/]) is modelled as exact
    arithmetic on [Q]; [Math.round] and [Math.ceil] return integers, here
    [Z].  The values the handlers feed to the calculators come from
    [parseInt], so they are integers, on which that arithmetic is exact in
    the script as well (6.25, 0.50 and 0.25 are dyadic).  The calorie form
    is modelled on fields that parse to numbers.  Where the script tests or
    indexes with the result of [parseInt] (the calories of an entry, the
    index of a deletion) that result is kept as it is: an integer or [NaN]
    ([parsed_int]).

    Strings.  A JavaScript string is a sequence of UTF-16 code units
    ([jsstring]); [String.prototype.trim] strips the ECMAScript white space
    and line terminator code points. *)

From Stdlib Require Import String Ascii.
From Stdlib Require Import ZArith QArith Qround Qabs List Lia Lqa Bool.
Import ListNotations.

Local Open Scope Z_scope.

(** ** JavaScript values *)

Module Js.

(** *** Math.round and Math.ceil on finite numbers *)

(** [Math.round(x)]: the nearest integer, a tie going towards +infinity. *)
Definition Math_round (x : Q) : Z := Qfloor (x + (1 # 2)).

(** [Math.ceil(x)]: the least integer not below [x]. *)
Definition Math_ceil (x : Q) : Z := Qceiling x.

(** *** Strings as sequences of UTF-16 code units *)

Definition code_unit := N.
Definition jsstring := list code_unit.

Definition jsstring_eq_dec : forall s t : jsstring, {s = t} + {s <> t} :=
  list_eq_dec N.eq_dec.

(** A string literal of the script (ASCII only). *)
Definition lit (s : string) : jsstring :=
  List.map N_of_ascii (list_ascii_of_string s).

(** The code points [trim] strips: ECMAScript WhiteSpace (TAB, VT, FF,
    ZWNBSP and the Unicode space separators) and LineTerminator (LF, CR, LS,
    PS). *)
Definition is_white_space (c : code_unit) : bool :=
  ((9 <=? c) && (c <=? 13)          (* TAB LF VT FF CR *)
   || (c =? 32)                     (* SPACE *)
   || (c =? 160)                    (* NO-BREAK SPACE *)
   || (c =? 5760)                   (* U+1680 *)
   || ((8192 <=? c) && (c <=? 8202)) (* U+2000 .. U+200A *)
   || (c =? 8232) || (c =? 8233)    (* LS, PS *)
   || (c =? 8239)                   (* U+202F *)
   || (c =? 8287)                   (* U+205F *)
   || (c =? 12288)                  (* U+3000 *)
   || (c =? 65279))%N%bool.         (* U+FEFF *)

Fixpoint trimStart (s : jsstring) : jsstring :=
  match s with
  | [] => []
  | c :: s' => if is_white_space c then trimStart s' else s
  end.

Definition trimEnd (s : jsstring) : jsstring := rev (trimStart (rev s)).

(** [String.prototype.trim]. *)
Definition trim (s : jsstring) : jsstring := trimEnd (trimStart s).

(** Truthiness of a string: the empty string is the only falsy one. *)
Definition truthy (s : jsstring) : bool :=
  match s with [] => false | _ :: _ => true end.

(** *** The result of parseInt *)

Inductive parsed_int : Type :=
| NaN : parsed_int
| Int : Z -> parsed_int.

(** *** Array.prototype.splice(start, 1) *)

(** ToIntegerOrInfinity of a [parseInt] result: [NaN] becomes 0. *)
Definition ToIntegerOrInfinity (n : parsed_int) : Z :=
  match n with NaN => 0 | Int z => z end.

(** The actual start of a splice on an array of length [len]: a negative
    [start] counts from the end, and both ends are clamped. *)
Definition actualStart (len : Z) (relativeStart : Z) : Z :=
  if relativeStart <? 0 then Z.max (len + relativeStart) 0
  else Z.min relativeStart len.

(** [arr.splice(start, deleteCount)], the array after the call: the
    elements from the actual start on, at most [deleteCount] of them and no
    more than there are, are removed. *)
Definition splice {A : Type} (arr : list A) (start : parsed_int) (deleteCount : Z)
  : list A :=
  let len := Z.of_nat (length arr) in
  let actual := actualStart len (ToIntegerOrInfinity start) in
  let actualDeleteCount := Z.min (Z.max deleteCount 0) (len - actual) in
  firstn (Z.to_nat actual) arr
    ++ skipn (Z.to_nat (actual + actualDeleteCount)) arr.

(** [arr.push(x)], the array after the call. *)
Definition push {A : Type} (arr : list A) (x : A) : list A := arr ++ [x].

End Js.

Import Js.

(** ** Core constants *)

Definition CALORIES_PER_KG_FAT : Q := 7700.
Definition CAL_PER_GRAM_PROTEIN : Q := 4.
Definition CAL_PER_GRAM_CARBS : Q := 4.
Definition CAL_PER_GRAM_FAT : Q := 9.

(** ** Core functions *)

Local Open Scope Q_scope.

(** Basal Metabolic Rate by the Mifflin-St Jeor equation. *)
Definition calculateBMR (weight height age : Q) (sex : jsstring) : Z :=
  let bmr :=
    if jsstring_eq_dec sex (lit "male") then
      (10 * weight) + (6.25 * height) - (5 * age) + 5
    else
      (10 * weight) + (6.25 * height) - (5 * age) - 161 in
  Math_round bmr.

(** Calorie adjustment: training time (min) times the experience multiplier. *)
Definition calculateExerciseAdjustment (time multiplier : Q) : Z :=
  Math_round (time * multiplier).

Local Close Scope Q_scope.

(** ** Local Storage *)

(** An entry of the food log, the object [{ name, calories }]. *)
Record FoodEntry : Type := { name : jsstring; calories : Z }.

(** The two items the script keeps in Local Storage; [None] is an item that
    was never set ([getItem] returns [null]). *)
Record LocalStorage : Type := {
  dailyCalorieGoal : option Z;
  foodLog : option (list FoodEntry)
}.

(** The storage keys, indexed by the type of the value kept under them. *)
Inductive key : Type -> Type :=
| GOAL_KEY : key Z
| FOOD_LOG_KEY : key (list FoodEntry).

Definition getItem {A : Type} (k : key A) (localStorage : LocalStorage) : option A :=
  match k in key T return option T with
  | GOAL_KEY => dailyCalorieGoal localStorage
  | FOOD_LOG_KEY => foodLog localStorage
  end.

Definition saveToLocalStorage {A : Type} (k : key A) (value : A)
    (localStorage : LocalStorage) : LocalStorage :=
  match k in key T return T -> LocalStorage with
  | GOAL_KEY => fun v =>
      {| dailyCalorieGoal := Some v; foodLog := foodLog localStorage |}
  | FOOD_LOG_KEY => fun v =>
      {| dailyCalorieGoal := dailyCalorieGoal localStorage; foodLog := Some v |}
  end value.

Definition getFromLocalStorage {A : Type} (k : key A) (defaultValue : A)
    (localStorage : LocalStorage) : A :=
  match getItem k localStorage with
  | Some stored => stored
  | None => defaultValue
  end.

(** Local Storage before the script ever ran. *)
Definition emptyStorage : LocalStorage :=
  {| dailyCalorieGoal := None; foodLog := None |}.

(** ** UI and state management *)

(** A list item of the rendered log: the name, the calories and the
    [data-index] of its delete button. *)
Record ListItem : Type := {
  itemName : jsstring;
  itemCalories : Z;
  dataIndex : nat
}.

(** What [renderLogAndSummary] writes to the page. *)
Record Summary : Type := {
  foodLogList : list ListItem;
  consumedCalories : Z;
  remainingCalories : Z;
  remainingOverGoal : bool      (* the colour: red when below zero *)
}.

(** One turn of the [forEach] callback; the state is the running total, the
    items appended so far and the index of the next element. *)
Definition forEachItem (acc : Z * list ListItem * nat) (item : FoodEntry)
  : Z * list ListItem * nat :=
  let '(totalConsumed, lis, index) := acc in
  (totalConsumed + calories item,
   lis ++ [{| itemName := name item; itemCalories := calories item;
              dataIndex := index |}],
   S index).

Definition renderLogAndSummary (log : list FoodEntry) (goal : Z) : Summary :=
  let '(totalConsumed, lis, _) := fold_left forEachItem log (0, [], O) in
  let remaining := goal - totalConsumed in
  {| foodLogList := lis;
     consumedCalories := totalConsumed;
     remainingCalories := remaining;
     remainingOverGoal := remaining <? 0 |}.


(** ** Event handlers *)

(** *** handleCalorieGoal *)

(** The fields of the calorie form as the handler reads them: the results of
    [parseInt] (integers) and of [parseFloat] for the weekly rate, and the
    value of the sex selector. *)
Record CalorieForm : Type := {
  age : Z;
  height : Z;
  weight : Z;
  sex : jsstring;
  trainingTime : Z;
  trainingMultiplier : Z;
  goalWeight : Z;
  weeklyLossRate : Q
}.

(** Steps 4 and 5, the macro calculation. *)
Record MacroTargets : Type := {
  gramsProtein : Z;
  gramsCarbs : Z;
  gramsFat : Z
}.

Local Open Scope Q_scope.

Definition macroCalculation (finalDailyGoal : Z) : MacroTargets :=
  let calCarbs := inject_Z finalDailyGoal * 0.50 in
  let calProtein := inject_Z finalDailyGoal * 0.25 in
  let calFat := inject_Z finalDailyGoal * 0.25 in
  {| gramsCarbs := Math_round (calCarbs / CAL_PER_GRAM_CARBS);
     gramsProtein := Math_round (calProtein / CAL_PER_GRAM_PROTEIN);
     gramsFat := Math_round (calFat / CAL_PER_GRAM_FAT) |}.

(** Step 6, the time message.  [AlreadyAtOrPastGoal g] is the text
    "Goal weight (g kg) is already reached or is a weight gain goal.",
    [WeeksRemaining n] is "Time to reach Goal = **n weeks**", and
    [WeeksUnbounded] is that text for a weekly rate of zero, where the
    quotient is not finite. *)
Inductive TimeMessage : Type :=
| AlreadyAtOrPastGoal (goalWeight : Z)
| WeeksRemaining (totalTimeWeeks : Z)
| WeeksUnbounded.

Definition timeNeeded (currentWeight goalWeight : Z) (weeklyLossRate : Q)
  : TimeMessage :=
  let weightDifference := (currentWeight - goalWeight)%Z in
  if (weightDifference <=? 0)%Z then AlreadyAtOrPastGoal goalWeight
  else if Qeq_bool weeklyLossRate 0 then WeeksUnbounded
  else
    let totalTimeWeeks := Math_ceil (inject_Z weightDifference / weeklyLossRate) in
    WeeksRemaining totalTimeWeeks.

Local Close Scope Q_scope.

(** What the handler shows: the spans it fills, the summary it re-renders
    and the figures of the alert. *)
Record GoalFeedback : Type := {
  bmr : Z;
  exerciseAdjustment : Z;
  dailyGoalSpan : Z;
  targets : MacroTargets;
  timelineOutput : TimeMessage;
  goalSummary : Summary
}.

Definition handleCalorieGoal (form : CalorieForm) (localStorage : LocalStorage)
  : LocalStorage * GoalFeedback :=
  let currentWeight := weight form in
  (* 2. BMR and exercise adjustment *)
  let bmr := calculateBMR (inject_Z currentWeight) (inject_Z (height form))
               (inject_Z (age form)) (sex form) in
  let exerciseAdjustment :=
    calculateExerciseAdjustment (inject_Z (trainingTime form))
      (inject_Z (trainingMultiplier form)) in
  (* 3. final daily goal (maintenance only) *)
  let finalDailyGoal := bmr + exerciseAdjustment in
  (* 4, 5. macros *)
  let grams := macroCalculation finalDailyGoal in
  (* 6. time needed *)
  let timeMessage := timeNeeded currentWeight (goalWeight form) (weeklyLossRate form) in
  (* 7. storage *)
  let localStorage' := saveToLocalStorage GOAL_KEY finalDailyGoal localStorage in
  (* 8. re-render the summary *)
  let foodLog := getFromLocalStorage FOOD_LOG_KEY [] localStorage' in
  (localStorage',
   {| bmr := bmr;
      exerciseAdjustment := exerciseAdjustment;
      dailyGoalSpan := finalDailyGoal;
      targets := grams;
      timelineOutput := timeMessage;
      goalSummary := renderLogAndSummary foodLog finalDailyGoal |}).

(** *** handleFoodLog *)

(** The handler either re-renders the log or alerts
    'Please enter a valid food name and calorie amount.' *)
Inductive FoodLogResult : Type :=
| Rendered (summary : Summary)
| InvalidEntryAlert.

(** [nameValue] is the value of the name field, [caloriesParsed] the result
    of [parseInt] on the calories field. *)
Definition handleFoodLog (nameValue : jsstring) (caloriesParsed : parsed_int)
    (localStorage : LocalStorage) : LocalStorage * FoodLogResult :=
  let name := trim nameValue in
  match caloriesParsed with          (* [NaN > 0] is false *)
  | Int calories =>
      if truthy name && (0 <? calories) then
        let foodLog := getFromLocalStorage FOOD_LOG_KEY [] localStorage in
        let foodLog := push foodLog {| name := name; calories := calories |} in
        let localStorage' := saveToLocalStorage FOOD_LOG_KEY foodLog localStorage in
        let dailyGoal := getFromLocalStorage GOAL_KEY 0 localStorage' in
        (localStorage', Rendered (renderLogAndSummary foodLog dailyGoal))
      else (localStorage, InvalidEntryAlert)
  | NaN => (localStorage, InvalidEntryAlert)
  end.

(** *** handleDeleteFood *)

(** [isDeleteBtn] tells whether the click hit a delete button, [indexParsed]
    is [parseInt] of its [data-index]. *)
Definition handleDeleteFood (isDeleteBtn : bool) (indexParsed : parsed_int)
    (localStorage : LocalStorage) : LocalStorage * option Summary :=
  if isDeleteBtn then
    let indexToDelete := indexParsed in
    let foodLog := getFromLocalStorage FOOD_LOG_KEY [] localStorage in
    let foodLog := splice foodLog indexToDelete 1 in
    let localStorage' := saveToLocalStorage FOOD_LOG_KEY foodLog localStorage in
    let dailyGoal := getFromLocalStorage GOAL_KEY 0 localStorage' in
    (localStorage', Some (renderLogAndSummary foodLog dailyGoal))
  else (localStorage, None).

(** *** handleResetDay *)

(** [confirmed] is the answer to the confirmation prompt. *)
Definition handleResetDay (confirmed : bool) (localStorage : LocalStorage)
  : LocalStorage * option Summary :=
  if confirmed then
    let localStorage' := saveToLocalStorage FOOD_LOG_KEY [] localStorage in
    let dailyGoal := getFromLocalStorage GOAL_KEY 0 localStorage' in
    (localStorage', Some (renderLogAndSummary [] dailyGoal))
  else (localStorage, None).

(** ** The page as a state machine *)

(** The events the four listeners react to. *)
Inductive Event : Type :=
| SubmitCalorieForm (form : CalorieForm)
| SubmitFoodForm (nameValue : jsstring) (caloriesParsed : parsed_int)
| ClickFoodLog (isDeleteBtn : bool) (indexParsed : parsed_int)
| ClickReset (confirmed : bool).

Definition dispatch (localStorage : LocalStorage) (e : Event) : LocalStorage :=
  match e with
  | SubmitCalorieForm form => fst (handleCalorieGoal form localStorage)
  | SubmitFoodForm nameValue caloriesParsed =>
      fst (handleFoodLog nameValue caloriesParsed localStorage)
  | ClickFoodLog isDeleteBtn indexParsed =>
      fst (handleDeleteFood isDeleteBtn indexParsed localStorage)
  | ClickReset confirmed => fst (handleResetDay confirmed localStorage)
  end.


(** The food log as every handler reads it. *)
Definition currentLog (localStorage : LocalStorage) : list FoodEntry :=
  getFromLocalStorage FOOD_LOG_KEY [] localStorage.

Definition currentGoal (localStorage : LocalStorage) : Z :=
  getFromLocalStorage GOAL_KEY 0 localStorage.

(** ** The vocabulary of the specification *)

(** The Mifflin-St Jeor value before rounding. *)
Definition mifflinStJeor (male : bool) (weight height age : Q) : Q :=
  (10 * weight + 6.25 * height - 5 * age + (if male then 5 else - (161)))%Q.


(** A name that is empty or made of white space only. *)
Definition blank (s : jsstring) : bool := forallb is_white_space s.

(** A string that does not begin, or end, with white space. *)
Definition startsClean (s : jsstring) : Prop :=
  match s with [] => True | c :: _ => is_white_space c = false end.

Definition endsClean (s : jsstring) : Prop := startsClean (rev s).

(** The sum of the calories of all entries. *)
Definition sumCalories (log : list FoodEntry) : Z :=
  fold_right (fun e total => calories e + total) 0 log.

(** The log without the entry at position [i]: the entries before it
    followed by the entries after it. *)
Definition removeAt {A : Type} (i : nat) (l : list A) : list A :=
  firstn i l ++ skipn (S i) l.




Definition twoEntries : LocalStorage :=
  {| dailyCalorieGoal := Some 2000;
     foodLog := Some [ {| name := lit "Apple"; calories := 95 |};
                       {| name := lit "Bread"; calories := 120 |} ] |}.

(** ** The page *)






(** ** More vocabulary *)



(** The list item of the entry at position [index]. *)
Definition listItem (index : nat) (item : FoodEntry) : ListItem :=
  {| itemName := name item; itemCalories := calories item; dataIndex := index |}.

Fixpoint listItemsFrom (index : nat) (log : list FoodEntry) : list ListItem :=
  match log with
  | [] => []
  | item :: log' => listItem index item :: listItemsFrom (S index) log'
  end.

(** * Properties *)

(** ** Rounding *)

Section Rounding.

Local Open Scope Q_scope.


#[global] Instance Math_round_Proper : Proper (Qeq ==> eq) Math_round.
Proof.
  intros x y E. unfold Math_round. now rewrite E.
Qed.



(** [Math.round] of a quotient of integers, in integer arithmetic. *)
Lemma Math_round_div (n : Z) (d : positive) :
  Math_round (inject_Z n / inject_Z (Z.pos d)) = ((2 * n + Z.pos d) / (2 * Z.pos d))%Z.
Proof.
  unfold Math_round.
  assert (E : inject_Z n / inject_Z (Z.pos d) + (1 # 2)
              == inject_Z (2 * n + Z.pos d) / inject_Z (2 * Z.pos d)).
  { rewrite inject_Z_plus, !inject_Z_mult.
    assert (Hd : ~ inject_Z (Z.pos d) == 0).
    { change 0 with (inject_Z 0). rewrite inject_Z_injective. lia. }
    change (inject_Z 2) with 2. field. exact Hd. }
  rewrite E. symmetry. apply Zdiv_Qdiv.
Qed.


End Rounding.

(** ** The calorie goal *)

Section CalorieGoal.

Local Open Scope Q_scope.

Lemma calculateBMR_mifflinStJeor (weight height age : Q) (sex : jsstring) :
  calculateBMR weight height age sex
  = Math_round (mifflinStJeor (if jsstring_eq_dec sex (lit "male") then true else false)
                  weight height age).
Proof.
  unfold calculateBMR, mifflinStJeor.
  destruct (jsstring_eq_dec sex (lit "male")); apply Qfloor_comp; ring.
Qed.




(** ** Macro targets *)

Lemma macro_quotients (g : Z) :
  inject_Z g * 0.50 / CAL_PER_GRAM_CARBS == inject_Z g / inject_Z 8
  /\ inject_Z g * 0.25 / CAL_PER_GRAM_PROTEIN == inject_Z g / inject_Z 16
  /\ inject_Z g * 0.25 / CAL_PER_GRAM_FAT == inject_Z g / inject_Z 36.
Proof.
  unfold CAL_PER_GRAM_CARBS, CAL_PER_GRAM_PROTEIN, CAL_PER_GRAM_FAT.
  change (inject_Z 8) with 8. change (inject_Z 16) with 16.
  change (inject_Z 36) with 36.
  repeat split; field.
Qed.



End CalorieGoal.

(** ** The timeline *)

Section Timeline.

Local Open Scope Q_scope.





End Timeline.

(** ** Strings: trim *)

Section Trim.

Lemma trimStart_split (s : jsstring) :
  exists pre, s = pre ++ trimStart s /\ blank pre = true.
Proof.
  induction s as [| c s IH]; simpl.
  - exists []. split; reflexivity.
  - destruct (is_white_space c) eqn:Ec.
    + destruct IH as (pre & Hs & Hpre).
      exists (c :: pre). split.
      * simpl. now rewrite <- Hs.
      * simpl. now rewrite Ec, Hpre.
    + exists []. split; reflexivity.
Qed.

Lemma trimStart_startsClean (s : jsstring) : startsClean (trimStart s).
Proof.
  induction s as [| c s IH]; simpl.
  - exact I.
  - destruct (is_white_space c) eqn:Ec; [exact IH | exact Ec].
Qed.

Lemma trimStart_nil_iff (s : jsstring) : trimStart s = [] <-> blank s = true.
Proof.
  induction s as [| c s IH]; simpl.
  - tauto.
  - destruct (is_white_space c); simpl.
    + exact IH.
    + split; discriminate.
Qed.

Lemma blank_rev (s : jsstring) : blank (rev s) = blank s.
Proof.
  unfold blank. induction s as [| c s IH]; simpl.
  - reflexivity.
  - rewrite forallb_app, IH. simpl. rewrite andb_true_r. apply andb_comm.
Qed.

Lemma blank_app (s t : jsstring) : blank (s ++ t) = blank s && blank t.
Proof. apply forallb_app. Qed.

Lemma startsClean_blank_nil (s : jsstring) :
  startsClean s -> blank s = true -> s = [].
Proof.
  destruct s as [| c s]; simpl; [reflexivity |].
  intros -> H. discriminate H.
Qed.

Lemma trimEnd_split (s : jsstring) :
  exists post, s = trimEnd s ++ post /\ blank post = true.
Proof.
  unfold trimEnd.
  destruct (trimStart_split (rev s)) as (pre & Hs & Hpre).
  exists (rev pre). split.
  - rewrite <- rev_app_distr, <- Hs. symmetry. apply rev_involutive.
  - now rewrite blank_rev.
Qed.

Lemma trimEnd_endsClean (s : jsstring) : endsClean (trimEnd s).
Proof.
  unfold endsClean, trimEnd. rewrite rev_involutive. apply trimStart_startsClean.
Qed.

Lemma trimEnd_startsClean (s : jsstring) : startsClean s -> startsClean (trimEnd s).
Proof.
  intros Hs. destruct (trimEnd_split s) as (post & E & _).
  destruct (trimEnd s) as [| c t]; [exact I |].
  rewrite E in Hs. exact Hs.
Qed.

(** [trim] returns the input without its leading and trailing white space. *)
Lemma trim_spec (s : jsstring) :
  exists pre post,
    s = pre ++ trim s ++ post
    /\ blank pre = true /\ blank post = true
    /\ startsClean (trim s) /\ endsClean (trim s).
Proof.
  destruct (trimStart_split s) as (pre & Hs & Hpre).
  destruct (trimEnd_split (trimStart s)) as (post & Ht & Hpost).
  exists pre, post. unfold trim. repeat split.
  - now rewrite <- Ht.
  - exact Hpre.
  - exact Hpost.
  - apply trimEnd_startsClean, trimStart_startsClean.
  - apply trimEnd_endsClean.
Qed.

Lemma trim_nil_iff (s : jsstring) : trim s = [] <-> blank s = true.
Proof.
  destruct (trim_spec s) as (pre & post & E & Hpre & Hpost & _).
  split.
  - intros Hn. rewrite E, Hn, !blank_app, Hpre, Hpost. reflexivity.
  - intros Hb. unfold trim, trimEnd.
    apply trimStart_nil_iff in Hb. rewrite Hb. reflexivity.
Qed.

(** What [trim] returns is determined by these properties. *)
Lemma trim_unique (pre mid post : jsstring) :
  blank pre = true -> blank post = true -> startsClean mid -> endsClean mid ->
  trim (pre ++ mid ++ post) = mid.
Proof.
  intros Hpre Hpost Hstart Hend.
  assert (Hts : forall p t, blank p = true -> startsClean t ->
                            trimStart (p ++ t) = t).
  { induction p as [| c p IH]; simpl; intros t Hp Ht.
    - destruct t as [| d t]; [reflexivity |]. simpl in *. now rewrite Ht.
    - apply andb_true_iff in Hp. destruct Hp as [Hc Hp].
      rewrite Hc. now apply IH. }
  destruct mid as [| c mid].
  - apply trim_nil_iff. simpl. now rewrite blank_app, Hpre, Hpost.
  - unfold trim. rewrite Hts by assumption.
    unfold trimEnd. rewrite rev_app_distr.
    rewrite Hts; [apply rev_involutive | now rewrite blank_rev | exact Hend].
Qed.

Lemma truthy_trim (s : jsstring) : truthy (trim s) = negb (blank s).
Proof.
  destruct (blank s) eqn:Hb.
  - apply trim_nil_iff in Hb. now rewrite Hb.
  - destruct (trim s) eqn:Ht; [| reflexivity].
    apply trim_nil_iff in Ht. congruence.
Qed.

End Trim.

(** ** Arrays: splice *)

Section Splice.

Context {A : Type}.

Lemma removeAt_beyond (i : nat) (l : list A) :
  (length l <= i)%nat -> removeAt i l = l.
Proof.
  intros H. unfold removeAt.
  rewrite firstn_all2 by lia. rewrite skipn_all2 by lia. apply app_nil_r.
Qed.

Lemma removeAt_length (i : nat) (l : list A) :
  (i < length l)%nat -> length (removeAt i l) = (length l - 1)%nat.
Proof.
  intros H. unfold removeAt.
  rewrite length_app, length_firstn, length_skipn. lia.
Qed.

(** Deleting shifts the later entries back by one and moves no other. *)
Lemma removeAt_nth_error (i j : nat) (l : list A) :
  (i < length l)%nat ->
  nth_error (removeAt i l) j
  = if (j <? i)%nat then nth_error l j else nth_error l (S j).
Proof.
  intros H. unfold removeAt.
  destruct (Nat.ltb_spec j i) as [Hlt | Hge].
  - rewrite nth_error_app1 by (rewrite length_firstn; lia).
    rewrite nth_error_firstn.
    destruct (Nat.ltb_spec j i); [reflexivity | lia].
  - rewrite nth_error_app2 by (rewrite length_firstn; lia).
    rewrite length_firstn, nth_error_skipn. f_equal. lia.
Qed.

Lemma removeAt_Forall (P : A -> Prop) (i : nat) (l : list A) :
  Forall P l -> Forall P (removeAt i l).
Proof.
  intros H. unfold removeAt. apply Forall_app. split.
  - rewrite <- (firstn_skipn i l) in H. now apply Forall_app in H.
  - rewrite <- (firstn_skipn (S i) l) in H. now apply Forall_app in H.
Qed.

(** [splice(start, 1)] removes the element at the actual start, if any. *)
Lemma splice_one (l : list A) (start : parsed_int) :
  splice l start 1
  = removeAt (Z.to_nat (actualStart (Z.of_nat (length l)) (ToIntegerOrInfinity start))) l.
Proof.
  unfold splice. cbv zeta.
  set (len := Z.of_nat (length l)).
  set (a := actualStart len (ToIntegerOrInfinity start)).
  assert (Ha : 0 <= a <= len).
  { unfold a, actualStart. destruct (Z.ltb_spec (ToIntegerOrInfinity start) 0); lia. }
  destruct (Z.eq_dec a len) as [E | N].
  - rewrite removeAt_beyond by lia.
    replace (Z.min (Z.max 1 0) (len - a)) with 0 by lia.
    rewrite Z.add_0_r. apply firstn_skipn.
  - unfold removeAt.
    replace (Z.min (Z.max 1 0) (len - a)) with 1 by lia.
    do 2 f_equal. lia.
Qed.

End Splice.

(** ** The food ledger *)

Section FoodLedger.

Lemma currentLog_save_log (log : list FoodEntry) (localStorage : LocalStorage) :
  currentLog (saveToLocalStorage FOOD_LOG_KEY log localStorage) = log.
Proof. reflexivity. Qed.

Lemma currentLog_save_goal (goal : Z) (localStorage : LocalStorage) :
  currentLog (saveToLocalStorage GOAL_KEY goal localStorage) = currentLog localStorage.
Proof. reflexivity. Qed.

Lemma currentGoal_save_log (log : list FoodEntry) (localStorage : LocalStorage) :
  currentGoal (saveToLocalStorage FOOD_LOG_KEY log localStorage) = currentGoal localStorage.
Proof. reflexivity. Qed.

(** *** Adding an entry *)

Lemma handleFoodLog_accepts (nameValue : jsstring) (c : Z) (localStorage : LocalStorage) :
  blank nameValue = false -> 0 < c ->
  handleFoodLog nameValue (Int c) localStorage
  = (let log := push (currentLog localStorage)
                  {| name := trim nameValue; calories := c |} in
     (saveToLocalStorage FOOD_LOG_KEY log localStorage,
      Rendered (renderLogAndSummary log (currentGoal localStorage)))).
Proof.
  intros Hb Hc. unfold handleFoodLog.
  rewrite truthy_trim, Hb. simpl negb.
  destruct (Z.ltb_spec 0 c); [reflexivity | lia].
Qed.

Lemma handleFoodLog_rejects (nameValue : jsstring) (c : Z) (localStorage : LocalStorage) :
  blank nameValue = true \/ c <= 0 ->
  handleFoodLog nameValue (Int c) localStorage = (localStorage, InvalidEntryAlert).
Proof.
  intros H. unfold handleFoodLog. rewrite truthy_trim.
  destruct H as [-> | Hc]; [reflexivity |].
  destruct (Z.ltb_spec 0 c); [lia |]. now rewrite andb_false_r.
Qed.

(** A calories field that does not parse is rejected as well. *)
Lemma handleFoodLog_NaN (nameValue : jsstring) (localStorage : LocalStorage) :
  handleFoodLog nameValue NaN localStorage = (localStorage, InvalidEntryAlert).
Proof. reflexivity. Qed.

Lemma add_entry_cases (nameValue : jsstring) (c : Z) :
  (blank nameValue = true \/ c <= 0) \/ (blank nameValue = false /\ 0 < c).
Proof.
  destruct (blank nameValue); destruct (Z_le_gt_dec c 0); intuition lia.
Qed.



(** C10: an accepted entry is stored under the trimmed name: the value of
    the field without its leading and trailing white space. *)
Theorem addEntry_stores_trimmed_name
    (log0 log1 : LocalStorage) (nameValue : jsstring) (caloriesParsed : parsed_int)
    (summary : Summary) :
  handleFoodLog nameValue caloriesParsed log0 = (log1, Rendered summary) ->
  exists (e : FoodEntry) (pre post : jsstring),
    currentLog log1 = currentLog log0 ++ [e]
    /\ foodLog log1 = Some (currentLog log0 ++ [e])
    /\ name e = trim nameValue
    /\ nameValue = pre ++ name e ++ post
    /\ blank pre = true /\ blank post = true
    /\ startsClean (name e) /\ endsClean (name e).
Proof.
  intros H. destruct caloriesParsed as [| c]; [discriminate H |].
  destruct (add_entry_cases nameValue c) as [Hbad | [Hb Hc]].
  - rewrite (handleFoodLog_rejects _ _ _ Hbad) in H. discriminate H.
  - rewrite (handleFoodLog_accepts _ _ _ Hb Hc) in H. cbv zeta in H.
    injection H as <- _.
    destruct (trim_spec nameValue) as (pre & post & E & Hpre & Hpost & Hs & He).
    exists {| name := trim nameValue; calories := c |}, pre, post.
    repeat split; assumption.
Qed.

Lemma addEntry_stores_trimmed_name_witness :
  exists e : FoodEntry,
    currentLog (fst (handleFoodLog (lit "  Apple pie ") (Int 95) emptyStorage)) = [e]
    /\ name e = lit "Apple pie".
Proof.
  destruct (addEntry_stores_trimmed_name emptyStorage
              (fst (handleFoodLog (lit "  Apple pie ") (Int 95) emptyStorage))
              (lit "  Apple pie ") (Int 95)
              (renderLogAndSummary [{| name := lit "Apple pie"; calories := 95 |}] 0)
              eq_refl)
    as (e & pre & post & Hlog & _ & Hname & _).
  exists e. split; [exact Hlog | rewrite Hname; reflexivity].
Defined.

(** *** Deleting an entry *)

Lemma handleDeleteFood_log (index : parsed_int) (localStorage : LocalStorage) :
  currentLog (fst (handleDeleteFood true index localStorage))
  = removeAt
      (Z.to_nat (actualStart (Z.of_nat (length (currentLog localStorage)))
                   (ToIntegerOrInfinity index)))
      (currentLog localStorage).
Proof.
  unfold handleDeleteFood. cbv zeta. cbn [fst].
  rewrite currentLog_save_log. apply splice_one.
Qed.

(** C6, by the position of the index: an index within the log removes
    exactly that entry, the later entries moving back by one and no other
    moving; an index at or
    beyond the length leaves the log unchanged; a negative index [-k] counts
    from the end and removes the entry at position [max(length - k, 0)]. *)
Theorem deleteEntry_by_index (log0 : LocalStorage) (index : Z) :
  let log := currentLog log0 in
  let log' := currentLog (fst (handleDeleteFood true (Int index) log0)) in
  let len := Z.of_nat (length log) in
  (0 <= index < len ->
     log' = firstn (Z.to_nat index) log ++ skipn (S (Z.to_nat index)) log
     /\ length log' = (length log - 1)%nat
     /\ forall j : nat,
          nth_error log' j
          = if (j <? Z.to_nat index)%nat then nth_error log j
            else nth_error log (S j))
  /\ (len <= index -> log' = log)
  /\ (index < 0 -> log' = removeAt (Z.to_nat (Z.max (len + index) 0)) log).
Proof.
  cbv zeta. rewrite handleDeleteFood_log. simpl ToIntegerOrInfinity.
  unfold actualStart. split; [| split].
  - intros H. destruct (Z.ltb_spec index 0); [lia |].
    rewrite Z.min_l by lia. split; [reflexivity |]. split.
    + apply removeAt_length. lia.
    + intros j. apply removeAt_nth_error. lia.
  - intros H. destruct (Z.ltb_spec index 0); [lia |].
    rewrite Z.min_r by lia. apply removeAt_beyond. lia.
  - intros H. destruct (Z.ltb_spec index 0); [reflexivity | lia].
Qed.

Lemma deleteEntry_by_index_witness :
  currentLog (fst (handleDeleteFood true (Int 0) twoEntries))
  = [{| name := lit "Bread"; calories := 120 |}]
  /\ currentLog (fst (handleDeleteFood true (Int 2) twoEntries)) = currentLog twoEntries
  /\ currentLog (fst (handleDeleteFood true (Int (-1)) twoEntries))
     = [{| name := lit "Apple"; calories := 95 |}].
Proof.
  split; [| split].
  - destruct (deleteEntry_by_index twoEntries 0) as (H & _ & _).
    destruct H as (H & _); [simpl; lia | rewrite H; reflexivity].
  - destruct (deleteEntry_by_index twoEntries 2) as (_ & H & _).
    apply H. simpl. lia.
  - destruct (deleteEntry_by_index twoEntries (-1)) as (_ & _ & H).
    rewrite H by lia. reflexivity.
Defined.

(** C6 does not hold of every index out of bounds: -1 is outside the bounds of a two-entry log, and
    deleting at -1 removes the last entry instead of leaving the log
    unchanged. *)
Lemma deleteEntry_negative_index_not_noop :
  ~ (0 <= -1 < Z.of_nat (length (currentLog twoEntries)))
  /\ currentLog (fst (handleDeleteFood true (Int (-1)) twoEntries))
     = [{| name := lit "Apple"; calories := 95 |}]
  /\ currentLog (fst (handleDeleteFood true (Int (-1)) twoEntries))
     <> currentLog twoEntries.
Proof.
  split; [lia |]. split; [reflexivity | discriminate].
Qed.

End FoodLedger.

(** ** The summary *)

Section SummaryTotals.




(** Every handler that renders shows the summary of the log and the goal it
    leaves in the storage. *)
Lemma handlers_render_stored_state (e : Event) (localStorage : LocalStorage) :
  let shown :=
    match e with
    | SubmitCalorieForm form =>
        Some (goalSummary (snd (handleCalorieGoal form localStorage)))
    | SubmitFoodForm nameValue caloriesParsed =>
        match snd (handleFoodLog nameValue caloriesParsed localStorage) with
        | Rendered s => Some s
        | InvalidEntryAlert => None
        end
    | ClickFoodLog isDeleteBtn indexParsed =>
        snd (handleDeleteFood isDeleteBtn indexParsed localStorage)
    | ClickReset confirmed => snd (handleResetDay confirmed localStorage)
    end in
  let after := dispatch localStorage e in
  shown = None
  \/ shown = Some (renderLogAndSummary (currentLog after) (currentGoal after)).
Proof.
  cbv zeta. destruct e as [form | nameValue [| c] | [|] index | [|]]; simpl;
    try (left; reflexivity); try (right; reflexivity).
  destruct (truthy (trim nameValue) && (0 <? c)); [right | left]; reflexivity.
Qed.


End SummaryTotals.

(** ** The invariant of the food log *)

Section LogInvariant.





End LogInvariant.

(** * Further properties of the script *)

(** ** More on rounding *)

Section RoundingMore.

Local Open Scope Q_scope.




Lemma Math_round_le (x y : Q) : x <= y -> (Math_round x <= Math_round y)%Z.
Proof.
  intros H. unfold Math_round. apply Qfloor_resp_le. lra.
Qed.

End RoundingMore.

(** ** More on the calorie goal *)

Section CalorieGoalMore.

Local Open Scope Q_scope.




(** X3: the value never decreases when the weight or the height grows and
    never increases with the age. *)
Theorem calculateBMR_monotone (weight weight' height height' age age' : Q)
    (sex : jsstring) :
  weight <= weight' -> height <= height' -> age' <= age ->
  (calculateBMR weight height age sex <= calculateBMR weight' height' age' sex)%Z.
Proof.
  intros Hw Hh Ha. rewrite !calculateBMR_mifflinStJeor. unfold mifflinStJeor.
  apply Math_round_le. lra.
Qed.

Lemma calculateBMR_monotone_witness :
  (calculateBMR 80 180 30 (lit "male") <= calculateBMR 85 181 29 (lit "male"))%Z.
Proof.
  apply calculateBMR_monotone; discriminate.
Defined.

Lemma macroCalculation_quotients (g : Z) :
  gramsCarbs (macroCalculation g) = ((g + 4) / 8)%Z
  /\ gramsProtein (macroCalculation g) = ((g + 8) / 16)%Z
  /\ gramsFat (macroCalculation g) = ((g + 18) / 36)%Z.
Proof.
  destruct (macro_quotients g) as (Ec & Ep & Ef).
  unfold macroCalculation; cbn [gramsCarbs gramsProtein gramsFat].
  rewrite (Math_round_Proper _ _ Ec), (Math_round_Proper _ _ Ep),
    (Math_round_Proper _ _ Ef), !Math_round_div.
  repeat split.
  - rewrite <- (Z.div_mul_cancel_l (g + 4) 8 2) by lia. f_equal; lia.
  - rewrite <- (Z.div_mul_cancel_l (g + 8) 16 2) by lia. f_equal; lia.
  - rewrite <- (Z.div_mul_cancel_l (g + 18) 36 2) by lia. f_equal; lia.
Qed.

(** X4: for a goal that is not negative the three targets are not negative
    and ordered, fat <= protein <= carbohydrate; a larger goal never gives a
    smaller target. *)
Theorem macro_targets_ordered (goal goal' : Z) :
  (0 <= goal <= goal')%Z ->
  let m := macroCalculation goal in
  let m' := macroCalculation goal' in
  (0 <= gramsFat m <= gramsProtein m)%Z
  /\ (gramsProtein m <= gramsCarbs m)%Z
  /\ (gramsFat m <= gramsFat m' /\ gramsProtein m <= gramsProtein m'
      /\ gramsCarbs m <= gramsCarbs m')%Z.
Proof.
  intros Hg. cbv zeta.
  destruct (macroCalculation_quotients goal) as (-> & -> & ->).
  destruct (macroCalculation_quotients goal') as (-> & -> & ->).
  pose proof (Z.div_le_mono (goal + 18) (goal' + 18) 36).
  pose proof (Z.div_le_mono (goal + 8) (goal' + 8) 16).
  pose proof (Z.div_le_mono (goal + 4) (goal' + 4) 8).
  pose proof (Z.div_pos (goal + 18) 36).
  assert ((goal + 18) / 36 <= (goal + 8) / 16)%Z.
  { apply Z.div_le_lower_bound; [lia |].
    pose proof (Z.mul_div_le (goal + 18) 36).
    pose proof (Z.div_mod (goal + 18) 36). pose proof (Z.mod_pos_bound (goal + 18) 36).
    lia. }
  assert ((goal + 8) / 16 <= (goal + 4) / 8)%Z.
  { apply Z.div_le_lower_bound; [lia |].
    pose proof (Z.div_mod (goal + 8) 16). pose proof (Z.mod_pos_bound (goal + 8) 16).
    lia. }
  lia.
Qed.

Lemma macro_targets_ordered_witness :
  let m := macroCalculation 2000 in
  (0 <= gramsFat m <= gramsProtein m)%Z /\ (gramsProtein m <= gramsCarbs m)%Z.
Proof.
  destruct (macro_targets_ordered 2000 2500) as (H1 & H2 & _); [lia |].
  split; assumption.
Defined.

End CalorieGoalMore.

(** ** More on the timeline *)

Section TimelineMore.

Local Open Scope Q_scope.

Lemma quotient_pos (d : Z) (rate : Q) :
  (0 < d)%Z -> 0 < rate -> 0 < inject_Z d / rate.
Proof.
  intros Hd Hrate. apply Qlt_shift_div_l; [exact Hrate |].
  rewrite Qmult_0_l. change 0 with (inject_Z 0). now rewrite <- Zlt_Qlt.
Qed.



(** X6: the weekly rate is not checked.  With weight still to lose, a rate
    of zero gives the message of the unbounded quotient, and a negative
    rate gives a number of weeks that is zero or negative. *)
Theorem timeline_degenerate_rate (currentWeight goalWeight : Z) (rate : Q) :
  (0 < currentWeight - goalWeight)%Z ->
  (rate == 0 -> timeNeeded currentWeight goalWeight rate = WeeksUnbounded)
  /\ (rate < 0 ->
      exists n : Z,
        timeNeeded currentWeight goalWeight rate = WeeksRemaining n /\ (n <= 0)%Z).
Proof.
  intros Hd. unfold timeNeeded.
  destruct (Z.leb_spec (currentWeight - goalWeight) 0); [lia |].
  split.
  - intros E. apply Qeq_bool_iff in E. now rewrite E.
  - intros Hneg.
    destruct (Qeq_bool rate 0) eqn:E.
    + apply Qeq_bool_eq in E. rewrite E in Hneg. discriminate Hneg.
    + eexists. split; [reflexivity |].
      set (d := (currentWeight - goalWeight)%Z) in *.
      assert (Hq : inject_Z d / rate <= 0).
      { assert (Hpos : 0 < inject_Z d / - rate).
        { apply quotient_pos; [exact Hd | lra]. }
        assert (Eq : inject_Z d / rate == - (inject_Z d / - rate)).
        { field. repeat split; intros E0;
            (assert (E1 : rate == 0) by lra); rewrite E1 in Hneg; discriminate Hneg. }
        rewrite Eq. lra. }
      unfold Math_ceil.
      apply Qceiling_resp_le in Hq. exact Hq.
Qed.

Lemma timeline_degenerate_rate_witness :
  timeNeeded 80 75 0 = WeeksUnbounded
  /\ exists n : Z, timeNeeded 80 75 (- (0.5)) = WeeksRemaining n /\ (n <= 0)%Z.
Proof.
  split.
  - apply (timeline_degenerate_rate 80 75 0); reflexivity.
  - apply (timeline_degenerate_rate 80 75 (- (0.5))); reflexivity.
Defined.

End TimelineMore.

(** ** Local Storage as a store *)

Section Storage.


End Storage.

(** ** The rendered log *)

Section RenderedLog.

Lemma forEach_state (log : list FoodEntry) (total : Z) (lis : list ListItem)
    (index : nat) :
  fold_left forEachItem log (total, lis, index)
  = (total + sumCalories log, lis ++ listItemsFrom index log, (index + length log)%nat).
Proof.
  revert total lis index.
  induction log as [| item log IH]; intros total lis index; simpl.
  - rewrite Z.add_0_r, app_nil_r, Nat.add_0_r. reflexivity.
  - rewrite IH. rewrite <- app_assoc. simpl. f_equal; [f_equal |]; [lia | lia].
Qed.

Lemma renderLogAndSummary_eq (log : list FoodEntry) (goal : Z) :
  renderLogAndSummary log goal
  = {| foodLogList := listItemsFrom 0 log;
       consumedCalories := sumCalories log;
       remainingCalories := goal - sumCalories log;
       remainingOverGoal := goal - sumCalories log <? 0 |}.
Proof.
  unfold renderLogAndSummary. rewrite forEach_state. reflexivity.
Qed.








End RenderedLog.

(** ** More on the food ledger *)

Section FoodLedgerMore.

(** X10: a click that is not on a delete button changes and renders
    nothing.  A click on a delete button never touches the goal, always
    writes the log item, and removes at most one entry; with an index that
    does not parse it removes the first entry. *)
Theorem delete_click_edge_cases (index : parsed_int) (localStorage : LocalStorage) :
  let out := handleDeleteFood true index localStorage in
  let log := currentLog localStorage in
  handleDeleteFood false index localStorage = (localStorage, None)
  /\ dailyCalorieGoal (fst out) = dailyCalorieGoal localStorage
  /\ foodLog (fst out) = Some (currentLog (fst out))
  /\ (length log - 1 <= length (currentLog (fst out)) <= length log)%nat
  /\ currentLog (fst (handleDeleteFood true NaN localStorage)) = tl log.
Proof.
  cbv zeta. split; [reflexivity |]. split; [reflexivity |]. split; [reflexivity |].
  split.
  - rewrite handleDeleteFood_log.
    set (j := Z.to_nat _).
    destruct (Nat.lt_ge_cases j (length (currentLog localStorage))) as [Hlt | Hge].
    + rewrite removeAt_length by exact Hlt. lia.
    + rewrite removeAt_beyond by exact Hge. lia.
  - rewrite handleDeleteFood_log. simpl ToIntegerOrInfinity.
    destruct (currentLog localStorage) as [| e log]; reflexivity.
Qed.

(** X11: a reset that is not confirmed changes and renders nothing; a
    confirmed reset empties the log, keeps the goal, and shows nothing
    consumed and the whole goal remaining. *)
Theorem reset_day_behaviour (localStorage : LocalStorage) :
  handleResetDay false localStorage = (localStorage, None)
  /\ currentLog (fst (handleResetDay true localStorage)) = []
  /\ dailyCalorieGoal (fst (handleResetDay true localStorage))
     = dailyCalorieGoal localStorage
  /\ exists summary : Summary,
       snd (handleResetDay true localStorage) = Some summary
       /\ foodLogList summary = []
       /\ consumedCalories summary = 0
       /\ remainingCalories summary = currentGoal localStorage.
Proof.
  repeat split. eexists. split; [reflexivity |].
  rewrite renderLogAndSummary_eq.
  cbn [foodLogList consumedCalories remainingCalories listItemsFrom sumCalories fold_right].
  repeat split. rewrite Z.sub_0_r. reflexivity.
Qed.



Lemma removeAt_last {A : Type} (l : list A) (x : A) :
  removeAt (length l) (l ++ [x]) = l.
Proof.
  unfold removeAt.
  rewrite firstn_app, firstn_all, Nat.sub_diag. simpl firstn.
  rewrite skipn_all2 by (rewrite length_app; simpl; lia).
  now rewrite !app_nil_r.
Qed.

(** X13: adding an entry and then deleting at its position, the old length
    of the log, or at the index -1, gives back the log as it was and shows
    the summary of that log. *)
Theorem add_then_delete_last (localStorage localStorage' : LocalStorage)
    (nameValue : jsstring) (caloriesParsed : parsed_int) (summary : Summary)
    (index : Z) :
  handleFoodLog nameValue caloriesParsed localStorage
  = (localStorage', Rendered summary) ->
  index = Z.of_nat (length (currentLog localStorage)) \/ index = -1 ->
  let out := handleDeleteFood true (Int index) localStorage' in
  currentLog (fst out) = currentLog localStorage
  /\ dailyCalorieGoal (fst out) = dailyCalorieGoal localStorage
  /\ snd out
     = Some (renderLogAndSummary (currentLog localStorage) (currentGoal localStorage)).
Proof.
  intros H Hindex. cbv zeta.
  destruct caloriesParsed as [| c]; [discriminate H |].
  destruct (add_entry_cases nameValue c) as [Hbad | [Hb Hc]].
  - rewrite (handleFoodLog_rejects _ _ _ Hbad) in H. discriminate H.
  - rewrite (handleFoodLog_accepts _ _ _ Hb Hc) in H. cbv zeta in H.
    injection H as <- _.
    set (e := {| name := trim nameValue; calories := c |}).
    set (st := saveToLocalStorage FOOD_LOG_KEY (push (currentLog localStorage) e)
                 localStorage).
    assert (Hlog : currentLog (fst (handleDeleteFood true (Int index) st))
                   = currentLog localStorage).
    { rewrite handleDeleteFood_log. unfold st. rewrite currentLog_save_log.
      unfold push. rewrite length_app. simpl length. simpl ToIntegerOrInfinity.
      unfold actualStart.
      replace (Z.to_nat _) with (length (currentLog localStorage)).
      - apply removeAt_last.
      - destruct Hindex as [-> | ->].
        + destruct (Z.ltb_spec (Z.of_nat (length (currentLog localStorage))) 0); lia.
        + simpl. lia. }
    split; [exact Hlog |]. split; [reflexivity |].
    transitivity
      (Some (renderLogAndSummary
               (currentLog (fst (handleDeleteFood true (Int index) st)))
               (currentGoal localStorage))); [reflexivity |].
    now rewrite Hlog.
Qed.

Lemma add_then_delete_last_witness :
  currentLog
    (fst (handleDeleteFood true (Int (-1))
            (fst (handleFoodLog (lit "Pear") (Int 95) twoEntries))))
  = currentLog twoEntries.
Proof.
  apply (add_then_delete_last twoEntries
           (fst (handleFoodLog (lit "Pear") (Int 95) twoEntries))
           (lit "Pear") (Int 95)
           (renderLogAndSummary
              (currentLog twoEntries ++ [{| name := lit "Pear"; calories := 95 |}])
              2000)
           (-1) eq_refl).
  right. reflexivity.
Defined.

Lemma trim_surrounded (pre s post : jsstring) :
  blank pre = true -> blank post = true -> trim (pre ++ s ++ post) = trim s.
Proof.
  intros Hpre Hpost.
  destruct (trim_spec s) as (p & q & E & Hp & Hq & Hs & He).
  rewrite E at 1.
  replace (pre ++ (p ++ trim s ++ q) ++ post)
    with ((pre ++ p) ++ trim s ++ (q ++ post))
    by (now rewrite <- !app_assoc).
  apply trim_unique; try assumption.
  - now rewrite blank_app, Hpre, Hp.
  - now rewrite blank_app, Hq, Hpost.
Qed.

(** X14: white space around the name makes no difference: the form accepts
    or rejects, stores and renders the same with and without it. *)
Theorem add_ignores_surrounding_space (pre nameValue post : jsstring)
    (caloriesParsed : parsed_int) (localStorage : LocalStorage) :
  blank pre = true -> blank post = true ->
  handleFoodLog (pre ++ nameValue ++ post) caloriesParsed localStorage
  = handleFoodLog nameValue caloriesParsed localStorage.
Proof.
  intros Hpre Hpost. unfold handleFoodLog. cbv zeta.
  now rewrite (trim_surrounded pre nameValue post Hpre Hpost).
Qed.

Lemma add_ignores_surrounding_space_witness :
  handleFoodLog (lit "  " ++ lit "Apple pie" ++ lit " ") (Int 95) twoEntries
  = handleFoodLog (lit "Apple pie") (Int 95) twoEntries.
Proof.
  apply add_ignores_surrounding_space; reflexivity.
Defined.

End FoodLedgerMore.

(** ** Sessions *)

Section Sessions.














End Sessions.
